(** * Shallow embedding of ingest.py and openwebui_mcp.py

    The two scripts talk to an Open WebUI backend over HTTP.  Every network
    call is modelled by its observable result, supplied by an environment,
    and every function returns its outcome together with the log of the
    calls it issued.  Python exceptions are an explicit [Raise] outcome. *)

From Stdlib Require Import String Ascii List ZArith Bool Lia Sorted Permutation.
Import ListNotations.
Open Scope string_scope.
Open Scope list_scope.

(* ------------------------------------------------------------------ *)
(** ** HTTP responses and [requests] helpers *)

(** [Response.raise_for_status] raises [HTTPError] for 4xx and 5xx. *)
Definition raise_for_status (code : Z) : bool :=
  (400 <=? code)%Z && (code <? 600)%Z.

Definition is_2xx (code : Z) : bool := (200 <=? code)%Z && (code <? 300)%Z.

(** A status code as [requests] hands it back after following redirects:
    a success, or an error status. *)
Definition well_formed_code (code : Z) : Prop :=
  is_2xx code = true \/ (400 <= code < 600)%Z.

(* ------------------------------------------------------------------ *)
(** ** ingest.py: constants *)

Definition POLL_INTERVAL : Z := 2.
Definition POLL_TIMEOUT : Z := 120.

(** Result of a Python call: a value, or an exception escaping it. *)
Inductive outcome (A : Type) : Type :=
| Ret (a : A)
| Raise.
Arguments Ret {A} a.
Arguments Raise {A}.

(* ------------------------------------------------------------------ *)
(** ** ingest.py: [wait_for_processing] *)

(** A reply of [GET /api/v1/files/{id}/process/status]: its HTTP status and
    the ["status"] member of its JSON body, when present. *)
Record status_response := mkStatus {
  sr_code : Z;
  sr_status : option string
}.

(** The effects of the polling loop, in the order they happen. *)
Inductive poll_action :=
| Poll                (* session.get(.../process/status) *)
| Sleep (secs : Z).   (* time.sleep(POLL_INTERVAL) *)

(** The loop body.  [clock] lists the successive readings of [time.time()]
    taken by the [while] test, [resps] the successive replies of the status
    endpoint.  [None] means the environment supplied too few readings or
    replies to finish the run. *)
Fixpoint wait_loop (deadline : Z) (clock : list Z) (resps : list status_response)
  : option (outcome bool * list poll_action) :=
  match clock with
  | [] => None
  | now :: clock' =>
      if (now <? deadline)%Z then
        match resps with
        | [] => None
        | r :: resps' =>
            if (sr_code r =? 404)%Z then Some (Ret true, [Poll])
            else if raise_for_status (sr_code r) then Some (Raise, [Poll])
            else
              let status := match sr_status r with Some s => s | None => "" end in
              if String.eqb status "completed" then Some (Ret true, [Poll])
              else if String.eqb status "failed" then Some (Ret false, [Poll])
              else
                match wait_loop deadline clock' resps' with
                | Some (o, tr) => Some (o, Poll :: Sleep POLL_INTERVAL :: tr)
                | None => None
                end
        end
      else Some (Ret false, [])
  end.

(** [deadline = time.time() + POLL_TIMEOUT], then the loop: the first clock
    reading fixes the deadline. *)
Definition wait_for_processing (clock : list Z) (resps : list status_response)
  : option (outcome bool * list poll_action) :=
  match clock with
  | [] => None
  | t0 :: clock' => wait_loop (t0 + POLL_TIMEOUT) clock' resps
  end.

(** The processing waiter of the specification, as a transition system
    over the states [Polling], [Completed], [Failed], [TimedOut] and
    [AssumedReady]; [reaches d clock resps s tr] says that polling with
    deadline [d] ends in the terminal state [s] after the actions [tr]. *)
Inductive wait_state :=
| Polling | Completed | Failed | TimedOut | AssumedReady.

Definition wait_verdict (s : wait_state) : bool :=
  match s with
  | Completed | AssumedReady => true
  | Polling | Failed | TimedOut => false
  end.

Definition status_of (r : status_response) : string :=
  match sr_status r with Some s => s | None => "" end.

Inductive reaches (d : Z) : list Z -> list status_response -> wait_state -> list poll_action -> Prop :=
| reach_timed_out now clock resps :
    (d <= now)%Z -> reaches d (now :: clock) resps TimedOut []
| reach_assumed_ready now clock r resps :
    (now < d)%Z -> sr_code r = 404%Z ->
    reaches d (now :: clock) (r :: resps) AssumedReady [Poll]
| reach_completed now clock r resps :
    (now < d)%Z -> is_2xx (sr_code r) = true -> status_of r = "completed" ->
    reaches d (now :: clock) (r :: resps) Completed [Poll]
| reach_failed now clock r resps :
    (now < d)%Z -> is_2xx (sr_code r) = true -> status_of r = "failed" ->
    reaches d (now :: clock) (r :: resps) Failed [Poll]
| reach_polling now clock r resps s tr :
    (now < d)%Z -> is_2xx (sr_code r) = true ->
    status_of r <> "completed" -> status_of r <> "failed" ->
    reaches d clock resps s tr ->
    reaches d (now :: clock) (r :: resps) s (Poll :: Sleep POLL_INTERVAL :: tr).

(* ------------------------------------------------------------------ *)
(** ** Network calls *)

(** The calls issued through the session, as the log records them. *)
Inductive call :=
| CListKnowledge                                   (* GET  /api/v1/knowledge/ *)
| CCreateKnowledge (name description : string)     (* POST /api/v1/knowledge/create *)
| CUpload (path : string)                          (* POST /api/v1/files/ *)
| CWaitFor (file_id : string)                      (* the polls of wait_for_processing *)
| CAttach (kb_id file_id : string)                 (* POST /api/v1/knowledge/{kb_id}/file/add *)
| CComplete (model question collection_id : string). (* POST /api/chat/completions *)

(* ------------------------------------------------------------------ *)
(** ** ingest.py: the per-file loop of [main] *)

(** What the three calls made for one catalog entry give back: the file id
    returned by [upload_file], the boolean returned by
    [wait_for_processing], and whether [add_to_knowledge] returns; [Raise]
    stands for any exception, all of which the loop catches. *)
Record file_env := mkFileEnv {
  fe_upload : outcome string;
  fe_wait : outcome bool;
  fe_attach : outcome unit
}.

(** The [try] block for one entry: whether it reached [succeeded += 1],
    and the calls it made. *)
Definition process_file (kb_id : string) (path : string) (e : file_env)
  : bool * list call :=
  match fe_upload e with
  | Raise => (false, [CUpload path])
  | Ret file_id =>
      match fe_wait e with
      | Raise => (false, [CUpload path; CWaitFor file_id])
      | Ret _ok =>
          (* the result only chooses between " done" and " timed-out" *)
          match fe_attach e with
          | Raise => (false, [CUpload path; CWaitFor file_id; CAttach kb_id file_id])
          | Ret _ => (true, [CUpload path; CWaitFor file_id; CAttach kb_id file_id])
          end
      end
  end.

(** The two counters of [main] and the calls made so far. *)
Record loop_state := mkLoopState {
  succeeded : nat;
  failed : nat;
  calls : list call
}.

Definition ingest_step (kb_id : string) (env : string -> file_env)
           (st : loop_state) (path : string) : loop_state :=
  let (ok, cs) := process_file kb_id path (env path) in
  if ok then mkLoopState (S (succeeded st)) (failed st) (calls st ++ cs)
  else mkLoopState (succeeded st) (S (failed st)) (calls st ++ cs).

(** [succeeded, failed = 0, 0] then [for i, path in enumerate(files, 1)]. *)
Definition ingest_loop (kb_id : string) (env : string -> file_env)
           (files : list string) (st : loop_state) : loop_state :=
  fold_left (ingest_step kb_id env) files st.

Definition loop_start : loop_state := mkLoopState 0 0 [].

Definition is_attach (c : call) : bool :=
  match c with CAttach _ _ => true | _ => false end.

Definition is_upload (c : call) : bool :=
  match c with CUpload _ => true | _ => false end.

Definition upload_fails (e : file_env) : bool :=
  match fe_upload e with Raise => true | Ret _ => false end.

Definition uploaded_id (e : file_env) : string :=
  match fe_upload e with Ret fid => fid | Raise => "" end.

(* ------------------------------------------------------------------ *)
(** ** The collection listing, [GET /api/v1/knowledge/] *)

(** One element of the listing. *)
Record kb := mkKb {
  kb_id : string;
  kb_name : string
}.

(** The decoded JSON body: a raw array, or an object [{"items": [...]}]. *)
Inductive listing :=
| Raw (items : list kb)
| Wrapped (items : list kb).

(** ingest.py: [for kb in r.json(): if kb.get("name") == name: return kb["id"]]
    over a raw array. *)
Fixpoint find_by_name (name : string) (kbs : list kb) : option string :=
  match kbs with
  | [] => None
  | k :: rest => if String.eqb (kb_name k) name then Some (kb_id k) else find_by_name name rest
  end.

Definition kb_description (name : string) : string :=
  "Ingested from local folder: " ++ name.

(** ingest.py: [get_or_create_knowledge].  [resp] is the listing reply
    ([Raise] when [raise_for_status] raises), [create] the id in the reply
    of the create call.  Iterating a JSON object visits its keys, which are
    strings, and [str] has no [.get]: an [AttributeError] escapes. *)
Definition get_or_create_knowledge (name : string) (resp : outcome listing)
           (create : outcome string) : outcome string * list call :=
  match resp with
  | Raise => (Raise, [CListKnowledge])
  | Ret (Wrapped _) => (Raise, [CListKnowledge])
  | Ret (Raw kbs) =>
      match find_by_name name kbs with
      | Some id => (Ret id, [CListKnowledge])
      | None =>
          (create, [CListKnowledge; CCreateKnowledge name (kb_description name)])
      end
  end.

(** openwebui_mcp.py: [data.get("items", data) if isinstance(data, dict) else data]. *)
Definition listing_items (data : listing) : list kb :=
  match data with
  | Raw kbs => kbs
  | Wrapped kbs => kbs
  end.

(** openwebui_mcp.py: [list_collections]. *)
Definition list_collections (resp : outcome listing) : outcome (list (string * string)) * list call :=
  match resp with
  | Raise => (Raise, [CListKnowledge])
  | Ret data => (Ret (map (fun k => (kb_id k, kb_name k)) (listing_items data)), [CListKnowledge])
  end.

(** [next((kb["id"] for kb in collections if kb["name"] == collection_name), None)] *)
Fixpoint next_id (collection_name : string) (collections : list kb) : option string :=
  match collections with
  | [] => None
  | k :: rest =>
      if String.eqb (kb_name k) collection_name then Some (kb_id k)
      else next_id collection_name rest
  end.

(** Python's [repr] of a [str] whose characters are read as code points
    0 to 255: single quotes unless the text holds a single quote and no
    double quote; backslash and the chosen quote escaped; [\n], [\r], [\t];
    other non-printable characters as [\xNN]. *)
Definition dquote : ascii := ascii_of_nat 34.
Definition squote : ascii := ascii_of_nat 39.
Definition backslash : ascii := ascii_of_nat 92.

Definition hex_digit (n : nat) : ascii :=
  match String.get n "0123456789abcdef" with Some c => c | None => "0"%char end.

Definition py_printable (c : ascii) : bool :=
  let n := nat_of_ascii c in
  negb ((n <? 32) || (n =? 127) || ((128 <=? n) && (n <=? 160)) || (n =? 173))%nat.

Definition py_repr_char (q c : ascii) : string :=
  let n := nat_of_ascii c in
  if Ascii.eqb c backslash then String backslash (String backslash EmptyString)
  else if Ascii.eqb c q then String backslash (String q EmptyString)
  else if (n =? 10)%nat then String backslash "n"
  else if (n =? 13)%nat then String backslash "r"
  else if (n =? 9)%nat then String backslash "t"
  else if py_printable c then String c EmptyString
  else String backslash (String "x" (String (hex_digit (n / 16)) (String (hex_digit (n mod 16)) EmptyString))).

Fixpoint has_char (c : ascii) (s : string) : bool :=
  match s with
  | EmptyString => false
  | String d s' => Ascii.eqb c d || has_char c s'
  end.

Fixpoint concat_map_chars (f : ascii -> string) (s : string) : string :=
  match s with
  | EmptyString => EmptyString
  | String c s' => f c ++ concat_map_chars f s'
  end.

Definition py_repr_str (s : string) : string :=
  let q := if has_char squote s && negb (has_char dquote s) then dquote else squote in
  String q (concat_map_chars (py_repr_char q) s ++ String q EmptyString).

(** [repr] of a list of [str]: ["[" + ", ".join(map(repr, xs)) + "]"]. *)
Definition py_repr_list (xs : list string) : string :=
  "[" ++ String.concat ", " (map py_repr_str xs) ++ "]".

(** [f"Collection '{collection_name}' not found. Available: {available}"] *)
Definition not_found_msg (collection_name : string) (available : list string) : string :=
  "Collection '" ++ collection_name ++ "' not found. Available: " ++ py_repr_list available.

(** openwebui_mcp.py: [rag_query].  [resp] is the listing reply and
    [completion] the text at [choices[0].message.content] of the reply of
    the completion call ([Raise] when that call fails). *)
Definition rag_query (question collection_name model : string)
           (resp : outcome listing) (completion : outcome string)
  : outcome string * list call :=
  match resp with
  | Raise => (Raise, [CListKnowledge])
  | Ret data =>
      let collections := listing_items data in
      match next_id collection_name collections with
      | None =>
          let available := map kb_name collections in
          (Ret (not_found_msg collection_name available), [CListKnowledge])
      | Some collection_id =>
          (completion, [CListKnowledge; CComplete model question collection_id])
      end
  end.

(* ------------------------------------------------------------------ *)
(** ** ingest.py: extensions and the file catalog *)

Definition DEFAULT_EXTENSIONS : list string :=
  [".pdf"; ".txt"; ".md"; ".rst"; ".csv";
   ".docx"; ".doc"; ".xlsx"; ".xls"; ".pptx";
   ".html"; ".htm"; ".xml"; ".json"].

(** A Python [set] of [str], as a list read up to duplicates. *)
Definition set_mem (x : string) (xs : list string) : bool :=
  existsb (String.eqb x) xs.

(** [str.split(sep)]: every occurrence of [sep] cuts. *)
Fixpoint split_on (sep : ascii) (s : string) : list string :=
  match s with
  | EmptyString => [EmptyString]
  | String c s' =>
      if Ascii.eqb c sep then EmptyString :: split_on sep s'
      else match split_on sep s' with
           | w :: ws => String c w :: ws
           | [] => [String c EmptyString]
           end
  end.

Definition dot : ascii := ascii_of_nat 46.
Definition comma : ascii := ascii_of_nat 44.
Definition slash : ascii := ascii_of_nat 47.

(** [e.startswith(".")] *)
Definition starts_with_dot (e : string) : bool :=
  match e with String c _ => Ascii.eqb c dot | EmptyString => false end.

(** [extensions = set(DEFAULT_EXTENSIONS)]; [if args.ext: extensions |=
    {e if e.startswith(".") else f".{e}" for e in args.ext.split(",")}].
    [None] and the empty string are both falsy. *)
Definition extension_set (ext : option string) : list string :=
  match ext with
  | None | Some EmptyString => DEFAULT_EXTENSIONS
  | Some e =>
      DEFAULT_EXTENSIONS ++
      map (fun x => if starts_with_dot x then x else String dot x) (split_on comma e)
  end.

(** [str.lower] on code points 0 to 255. *)
Definition lower_char (c : ascii) : ascii :=
  let n := nat_of_ascii c in
  if (((65 <=? n) && (n <=? 90)) || ((192 <=? n) && (n <=? 222) && negb (n =? 215)))%nat
  then ascii_of_nat (n + 32) else c.

Fixpoint lower (s : string) : string :=
  match s with
  | EmptyString => EmptyString
  | String c s' => String (lower_char c) (lower s')
  end.

(** [name.rfind('.')] *)
Fixpoint rfind_dot_from (i : nat) (s : string) (best : option nat) : option nat :=
  match s with
  | EmptyString => best
  | String c s' => rfind_dot_from (S i) s' (if Ascii.eqb c dot then Some i else best)
  end.

(** [PurePath.suffix]: [i = name.rfind('.')]; [name[i:]] when
    [0 < i < len(name) - 1], else the empty string. *)
Definition path_suffix (name : string) : string :=
  match rfind_dot_from 0 name None with
  | Some i =>
      if ((0 <? i) && (i <? String.length name - 1))%nat
      then substring i (String.length name - i) name else EmptyString
  | None => EmptyString
  end.

(** A path below the root, written relative to it with ["/"] separators. *)
Record fs_entry := mkEntry {
  en_path : string;
  en_is_file : bool
}.

Definition path_parts (path : string) : list string := split_on slash path.

Definition path_name (path : string) : string :=
  last (path_parts path) EmptyString.

(** [Path.__lt__] on POSIX compares the lists of parts. *)
Fixpoint parts_ltb (a b : list string) : bool :=
  match a, b with
  | [], [] => false
  | [], _ :: _ => true
  | _ :: _, [] => false
  | x :: a', y :: b' =>
      match String.compare x y with
      | Lt => true
      | Gt => false
      | Eq => parts_ltb a' b'
      end
  end.

Fixpoint insert_path (p : string) (ps : list string) : list string :=
  match ps with
  | [] => [p]
  | q :: ps' => if parts_ltb (path_parts q) (path_parts p) then q :: insert_path p ps' else p :: q :: ps'
  end.

(** [sorted(...)], stable. *)
Definition sort_paths (ps : list string) : list string :=
  fold_right insert_path [] ps.

(** [collect_files]: [sorted(p for p in folder.rglob("*") if p.is_file()
    and p.suffix.lower() in extensions)]; [tree] is what [rglob] yields. *)
Definition matches_ext (extensions : list string) (e : fs_entry) : bool :=
  en_is_file e && set_mem (lower (path_suffix (path_name (en_path e)))) extensions.

Definition collect_files (tree : list fs_entry) (extensions : list string) : list string :=
  sort_paths (map en_path (filter (matches_ext extensions) tree)).

(* ------------------------------------------------------------------ *)
(** ** ingest.py: [main] *)

(** The command line, and the environment variable [OPENWEBUI_API_KEY]. *)
Record cli_args := mkArgs {
  arg_folder_name : string;      (* folder.name, after expanduser().resolve() *)
  arg_folder_is_dir : bool;      (* folder.is_dir() *)
  arg_url : string;              (* --url, default "http://localhost:3000" *)
  arg_collection : option string;
  arg_api_key : option string;
  arg_ext : option string;
  arg_dry_run : bool
}.

(** What the backend answers during a run. *)
Record net_env := mkNet {
  ne_listing : outcome listing;
  ne_create : outcome string;
  ne_file : string -> file_env
}.

(** The observable result of a run: exit status, lines written to stdout,
    and the network calls.  The per-file progress lines of the loop are not
    recorded. *)
Record run := mkRun {
  exit_status : Z;
  stdout : list string;
  network : list call
}.

(** [a or b] on optional strings: [None] and [""] are falsy. *)
Definition py_or (a : option string) (b : string) : string :=
  match a with
  | Some (String c s) => String c s
  | _ => b
  end.

Fixpoint nat_digits (fuel n : nat) (acc : string) : string :=
  match fuel with
  | O => acc
  | S fuel' =>
      let acc' := String (ascii_of_nat (48 + n mod 10)) acc in
      if (n <? 10)%nat then acc' else nat_digits fuel' (n / 10) acc'
  end.

(** [str(n)] for a natural number. *)
Definition py_str_nat (n : nat) : string := nat_digits (S n) n EmptyString.

(** [s.rstrip("/")] *)
Fixpoint rstrip_slash (s : string) : string :=
  match s with
  | EmptyString => EmptyString
  | String c s' =>
      match rstrip_slash s' with
      | EmptyString => if Ascii.eqb c slash then EmptyString else String c EmptyString
      | r => String c r
      end
  end.

(** U+2500, encoded in UTF-8. *)
Definition box_rule : string :=
  String (ascii_of_nat 226) (String (ascii_of_nat 148) (String (ascii_of_nat 128) EmptyString)).

Fixpoint repeat_str (n : nat) (s : string) : string :=
  match n with O => EmptyString | S n' => s ++ repeat_str n' s end.

Definition summary_lines (succeeded failed : nat) (collection_name kb_id base_url : string)
  : list string :=
  [""; (box_rule ++ box_rule ++ " Summary " ++ repeat_str 30 box_rule)%string;
   ("  Succeeded : " ++ py_str_nat succeeded)%string;
   ("  Failed    : " ++ py_str_nat failed)%string;
   ("  Collection: '" ++ collection_name ++ "' (" ++ kb_id ++ ")")%string;
   ("  View at   : " ++ base_url)%string].

Definition found_line (n : nat) (collection_name : string) : string :=
  "Found " ++ py_str_nat n ++ " file(s) to ingest into '" ++ collection_name ++ "':".

(** [main].  [sys.exit(msg)] and an uncaught exception both end the process
    with status 1 (the message goes to stderr); returning ends it with 0. *)
Definition main (args : cli_args) (env_api_key : option string)
           (tree : list fs_entry) (net : net_env) : run :=
  if negb (arg_folder_is_dir args) then mkRun 1 [] []
  else
    let api_key := py_or (arg_api_key args) (match env_api_key with Some k => k | None => "" end) in
    if String.eqb api_key "" && negb (arg_dry_run args) then mkRun 1 [] []
    else
      let collection_name := py_or (arg_collection args) (arg_folder_name args) in
      let extensions := extension_set (arg_ext args) in
      let files := collect_files tree extensions in
      match files with
      | [] => mkRun 1 [] []
      | _ :: _ =>
          let listed := found_line (length files) collection_name
                        :: map (fun f => "  " ++ f)%string files in
          if arg_dry_run args then mkRun 0 listed []
          else
            let base_url := rstrip_slash (arg_url args) in
            match get_or_create_knowledge collection_name (ne_listing net) (ne_create net) with
            | (Raise, cs) => mkRun 1 (listed ++ [""]) cs
            | (Ret kb_id, cs) =>
                let st := ingest_loop kb_id (ne_file net) files loop_start in
                mkRun (if (failed st =? 0)%nat then 0 else 1)
                      (listed ++ [""] ++ summary_lines (succeeded st) (failed st)
                                          collection_name kb_id base_url)
                      (cs ++ calls st)
            end
      end.

(** Concrete inputs: a backend that refuses every call, and a dry run. *)
Definition no_backend : net_env :=
  mkNet Raise Raise (fun _ => mkFileEnv Raise Raise Raise).

Definition dry_args : cli_args :=
  mkArgs "docs" true "http://localhost:3000" None None None true.

(** Whether an entry's upload, wait and attach calls all returned. *)
Definition entry_ok (e : file_env) : bool :=
  match fe_upload e, fe_wait e, fe_attach e with
  | Ret _, Ret _, Ret _ => true
  | _, _, _ => false
  end.

Definition upload_and_wait_ok (e : file_env) : bool :=
  match fe_upload e, fe_wait e with
  | Ret _, Ret _ => true
  | _, _ => false
  end.

Definition is_wait (c : call) : bool :=
  match c with CWaitFor _ => true | _ => false end.

(** [args.api_key or os.environ.get("OPENWEBUI_API_KEY", "")] *)
Definition resolved_api_key (args : cli_args) (env_api_key : option string) : string :=
  py_or (arg_api_key args) (match env_api_key with Some k => k | None => "" end).

Definition is_setup_call (c : call) : bool :=
  match c with CListKnowledge | CCreateKnowledge _ _ => true | _ => false end.

Definition is_poll (a : poll_action) : bool :=
  match a with Poll => true | Sleep _ => false end.

(** Clock readings of the [while] test, each at least [lo] and, from the
    second on, at least [POLL_INTERVAL] after the previous one (the loop
    sleeps [POLL_INTERVAL] between two tests). *)
Fixpoint spaced (lo : Z) (clock : list Z) : Prop :=
  match clock with
  | [] => True
  | c :: clock' => (lo <= c)%Z /\ spaced (c + POLL_INTERVAL) clock'
  end.

(** The value of a string of decimal digits. *)
Fixpoint dec_value (acc : nat) (s : string) : nat :=
  match s with
  | EmptyString => acc
  | String c s' => dec_value (acc * 10 + (nat_of_ascii c - 48)) s'
  end.

Fixpoint all_digits (s : string) : bool :=
  match s with
  | EmptyString => true
  | String c s' => ((48 <=? nat_of_ascii c) && (nat_of_ascii c <=? 57))%nat && all_digits s'
  end.

(** Characters that [repr] copies as they are, whichever quote it uses. *)
Fixpoint all_plain (s : string) : bool :=
  match s with
  | EmptyString => true
  | String c s' =>
      py_printable c && negb (Ascii.eqb c backslash) && negb (Ascii.eqb c dquote)
      && all_plain s'
  end.

(* ================================================================== *)
(** * Proofs *)

(** A well-formed reply that is neither 404 nor an error is a success. *)
Lemma wf_not_error (c : Z) :
  well_formed_code c -> c <> 404%Z -> raise_for_status c = false -> is_2xx c = true.
Proof.
  unfold well_formed_code, raise_for_status, is_2xx. intros [H | H] Hn Hr; auto.
  apply andb_false_iff in Hr. destruct Hr as [Hr | Hr];
    [apply Z.leb_gt in Hr | apply Z.ltb_ge in Hr]; lia.
Qed.

Lemma is_2xx_not_404 (c : Z) : is_2xx c = true -> c <> 404%Z.
Proof.
  unfold is_2xx. intros H. apply andb_true_iff in H.
  destruct H as [_ H]. apply Z.ltb_lt in H. lia.
Qed.

Lemma is_2xx_no_raise (c : Z) : is_2xx c = true -> raise_for_status c = false.
Proof.
  unfold is_2xx, raise_for_status. intros H. apply andb_true_iff in H.
  destruct H as [_ H]. apply Z.ltb_lt in H.
  apply andb_false_iff. left. apply Z.leb_gt. lia.
Qed.

Lemma wait_loop_reaches (d : Z) (clock : list Z) (resps : list status_response)
      (b : bool) (tr : list poll_action) :
  Forall (fun r => well_formed_code (sr_code r)) resps ->
  wait_loop d clock resps = Some (Ret b, tr) <->
  exists s, reaches d clock resps s tr /\ wait_verdict s = b.
Proof.
  revert resps b tr. induction clock as [|now clock IH]; intros resps b tr Hwf.
  - split; [discriminate | intros (s & Hs & _); inversion Hs].
  - simpl. destruct (Z.ltb_spec now d) as [Hlt | Hge].
    + destruct resps as [|r resps].
      * split; [discriminate | intros (s & Hs & _); inversion Hs; lia].
      * inversion Hwf as [|? ? Hr Hwf']; subst.
        destruct (Z.eqb_spec (sr_code r) 404) as [H404 | H404].
        { split.
          - intros H; inversion H; subst. exists AssumedReady. split; auto.
            constructor; auto.
          - intros (s & Hs & Hv). inversion Hs; subst; try lia;
              try (exfalso; apply (is_2xx_not_404 (sr_code r)); assumption); reflexivity. }
        destruct (raise_for_status (sr_code r)) eqn:Hrs.
        { split; [discriminate|].
          intros (s & Hs & _). inversion Hs; subst; try lia; try congruence;
            rewrite is_2xx_no_raise in Hrs by assumption; discriminate. }
        pose proof (wf_not_error _ Hr H404 Hrs) as H2.
        fold (status_of r).
        destruct (String.eqb_spec (status_of r) "completed") as [Hc | Hc].
        { split.
          - intros H; inversion H; subst. exists Completed.
            split; [constructor|]; auto.
          - intros (s & Hs & Hv). inversion Hs; subst; try lia; try congruence.
            reflexivity. }
        destruct (String.eqb_spec (status_of r) "failed") as [Hf | Hf].
        { split.
          - intros H; inversion H; subst. exists Failed.
            split; [constructor|]; auto.
          - intros (s & Hs & Hv). inversion Hs; subst; try lia; try congruence.
            reflexivity. }
        split.
        { destruct (wait_loop d clock resps) as [[o tr']|] eqn:E; [|discriminate].
          intros H; inversion H; subst.
          destruct (proj1 (IH resps b tr' Hwf') E) as (s & Hs & Hv).
          exists s. split; auto. constructor; auto. }
        { intros (s & Hs & Hv). inversion Hs; subst; try lia; try congruence.
          assert (E : wait_loop d clock resps = Some (Ret (wait_verdict s), tr0))
            by (apply (IH resps _ _ Hwf'); eauto).
          rewrite E. reflexivity. }
    + split.
      * intros H; inversion H; subst. exists TimedOut. split; auto. constructor; lia.
      * intros (s & Hs & Hv). inversion Hs; subst; try lia. reflexivity.
Qed.

(** ** Claim C1 *)

Example wait_third_poll_completes :
  wait_for_processing [0; 1; 3; 5]%Z
    [mkStatus 200 (Some "pending"); mkStatus 200 None; mkStatus 200 (Some "completed")]
  = Some (Ret true, [Poll; Sleep 2; Poll; Sleep 2; Poll]).
Proof. reflexivity. Qed.

Example wait_404_once :
  wait_for_processing [0; 1]%Z [mkStatus 404 None; mkStatus 404 None]
  = Some (Ret true, [Poll]).
Proof. reflexivity. Qed.

Example wait_never_completes :
  wait_for_processing [0; 60; 119; 121]%Z
    [mkStatus 200 (Some "processing"); mkStatus 200 (Some "processing");
     mkStatus 200 (Some "processing")]
  = Some (Ret false, [Poll; Sleep 2; Poll; Sleep 2]).
Proof. reflexivity. Qed.

(** C1: over any sequence of well-formed replies of the status endpoint,
    [wait_for_processing] returns [b] exactly when the specification's
    waiter, started with deadline [t0 + POLL_TIMEOUT], ends in a terminal
    state of verdict [b]: [true] for [Completed] (2xx, status "completed")
    and [AssumedReady] (a 404, returned on that very poll), [false] for
    [Failed] (2xx, status "failed") and [TimedOut] (deadline reached); any
    other 2xx status, empty or unrecognised, stays in [Polling] and sleeps
    [POLL_INTERVAL] before the next poll. *)
Theorem wait_for_processing_contract (t0 : Z) (clock : list Z)
        (resps : list status_response) (b : bool) (tr : list poll_action) :
  Forall (fun r => well_formed_code (sr_code r)) resps ->
  wait_for_processing (t0 :: clock) resps = Some (Ret b, tr) <->
  exists s, reaches (t0 + POLL_TIMEOUT) clock resps s tr /\ wait_verdict s = b.
Proof. intros Hwf. apply wait_loop_reaches; exact Hwf. Qed.

Lemma wait_for_processing_contract_witness :
  Forall (fun r => well_formed_code (sr_code r))
    [mkStatus 200 (Some "pending"); mkStatus 200 (Some "completed")] /\
  (wait_for_processing [0; 1; 3]%Z
     [mkStatus 200 (Some "pending"); mkStatus 200 (Some "completed")]
   = Some (Ret true, [Poll; Sleep POLL_INTERVAL; Poll]) <->
   exists s, reaches (0 + POLL_TIMEOUT) [1; 3]%Z
               [mkStatus 200 (Some "pending"); mkStatus 200 (Some "completed")]
               s [Poll; Sleep POLL_INTERVAL; Poll] /\ wait_verdict s = true).
Proof.
  assert (Hwf : Forall (fun r => well_formed_code (sr_code r))
    [mkStatus 200 (Some "pending"); mkStatus 200 (Some "completed")])
    by (repeat constructor; left; reflexivity).
  split; [exact Hwf | apply (wait_for_processing_contract 0 [1; 3]%Z _ true _ Hwf)].
Defined.

(** ** The batch loop: claims C2, C4 and C9 *)

Lemma ingest_loop_cons (kb_id : string) (env : string -> file_env)
      (p : string) (ps : list string) (st : loop_state) :
  ingest_loop kb_id env (p :: ps) st = ingest_loop kb_id env ps (ingest_step kb_id env st p).
Proof. reflexivity. Qed.

Lemma filter_app_calls (f : call -> bool) (l1 l2 : list call) :
  filter f (l1 ++ l2) = filter f l1 ++ filter f l2.
Proof. apply filter_app. Qed.

Lemma filter_length_split {A} (f : A -> bool) (l : list A) :
  length (filter f l) + length (filter (fun x => negb (f x)) l) = length l.
Proof.
  induction l as [|x l IH]; simpl; [reflexivity|].
  destruct (f x); simpl; lia.
Qed.

(** Under the hypothesis of C2, one pass of the loop from any state. *)
Lemma ingest_loop_upload_only (kb_id : string) (env : string -> file_env)
      (files : list string) (st : loop_state) :
  (forall p, In p files ->
     upload_fails (env p) = true \/
     ((exists b, fe_wait (env p) = Ret b) /\ fe_attach (env p) = Ret tt)) ->
  let st' := ingest_loop kb_id env files st in
  failed st' = failed st + length (filter (fun p => upload_fails (env p)) files) /\
  succeeded st' = succeeded st + length (filter (fun p => negb (upload_fails (env p))) files) /\
  filter is_upload (calls st') = filter is_upload (calls st) ++ map CUpload files /\
  filter is_attach (calls st') =
    filter is_attach (calls st) ++
    map (fun p => CAttach kb_id (uploaded_id (env p)))
        (filter (fun p => negb (upload_fails (env p))) files).
Proof.
  revert st. induction files as [|p ps IH]; intros st Hok; simpl.
  - rewrite !app_nil_r. repeat split; lia.
  - assert (Hp : upload_fails (env p) = true \/
                 ((exists b, fe_wait (env p) = Ret b) /\ fe_attach (env p) = Ret tt))
      by (apply Hok; left; reflexivity).
    assert (Hps : forall q, In q ps ->
                    upload_fails (env q) = true \/
                    ((exists b, fe_wait (env q) = Ret b) /\ fe_attach (env q) = Ret tt))
      by (intros q Hq; apply Hok; right; exact Hq).
    destruct (IH (ingest_step kb_id env st p) Hps) as (Hf & Hs & Hu & Ha).
    unfold ingest_step, process_file, upload_fails, uploaded_id in *.
    destruct (fe_upload (env p)) as [fid|] eqn:Eu; simpl in *.
    + destruct Hp as [Hp | ((b & Hw) & Hat)]; [discriminate|].
      rewrite Hw, Hat in *. simpl in *.
      rewrite Hf, Hs, Hu, Ha, !filter_app, <- !app_assoc. simpl.
      rewrite ?Eu. simpl. repeat split; try lia; reflexivity.
    + rewrite Hf, Hs, Hu, Ha, !filter_app, <- !app_assoc. simpl.
      rewrite ?Eu. simpl. repeat split; try lia; reflexivity.
Qed.

Example batch_two_of_three :
  let env := fun p => if String.eqb p "b.pdf"
                      then mkFileEnv Raise (Ret true) (Ret tt)
                      else mkFileEnv (Ret ("id-" ++ p)%string) (Ret true) (Ret tt) in
  ingest_loop "kb1" env ["a.txt"; "b.pdf"; "c.md"] loop_start =
  mkLoopState 2 1
    [CUpload "a.txt"; CWaitFor "id-a.txt"; CAttach "kb1" "id-a.txt";
     CUpload "b.pdf";
     CUpload "c.md"; CWaitFor "id-c.md"; CAttach "kb1" "id-c.md"].
Proof. reflexivity. Qed.

(** C2: when exactly the K entries whose upload raises fail and every other
    step succeeds, the loop visits all N entries in catalog order (one
    upload call each, in order), ends with [failed = K] and
    [succeeded = N - K], and its attach calls are exactly one per
    non-failing entry, in catalog order, each with that entry's file id. *)
Theorem ingest_loop_upload_failures (kb_id : string) (env : string -> file_env)
        (files : list string) :
  (forall p, In p files ->
     upload_fails (env p) = true \/
     ((exists b, fe_wait (env p) = Ret b) /\ fe_attach (env p) = Ret tt)) ->
  let K := length (filter (fun p => upload_fails (env p)) files) in
  let st := ingest_loop kb_id env files loop_start in
  failed st = K /\
  succeeded st = length files - K /\
  filter is_upload (calls st) = map CUpload files /\
  filter is_attach (calls st) =
    map (fun p => CAttach kb_id (uploaded_id (env p)))
        (filter (fun p => negb (upload_fails (env p))) files).
Proof.
  intros Hok K st.
  destruct (ingest_loop_upload_only kb_id env files loop_start Hok) as (Hf & Hs & Hu & Ha).
  pose proof (filter_length_split (fun p => upload_fails (env p)) files) as Hlen.
  subst K st. simpl in *. repeat split; [exact Hf | lia | exact Hu | exact Ha].
Qed.

Lemma ingest_loop_upload_failures_witness :
  let env := fun p => if String.eqb p "b.pdf"
                      then mkFileEnv Raise (Ret true) (Ret tt)
                      else mkFileEnv (Ret ("id-" ++ p)%string) (Ret false) (Ret tt) in
  (forall p, In p ["a.txt"; "b.pdf"; "c.md"] ->
     upload_fails (env p) = true \/
     ((exists b, fe_wait (env p) = Ret b) /\ fe_attach (env p) = Ret tt)) /\
  (let K := length (filter (fun p => upload_fails (env p)) ["a.txt"; "b.pdf"; "c.md"]) in
   let st := ingest_loop "kb1" env ["a.txt"; "b.pdf"; "c.md"] loop_start in
   failed st = K /\
   succeeded st = length ["a.txt"; "b.pdf"; "c.md"] - K /\
   filter is_upload (calls st) = map CUpload ["a.txt"; "b.pdf"; "c.md"] /\
   filter is_attach (calls st) =
     map (fun p => CAttach "kb1" (uploaded_id (env p)))
         (filter (fun p => negb (upload_fails (env p))) ["a.txt"; "b.pdf"; "c.md"])).
Proof.
  intros env.
  assert (Hok : forall p, In p ["a.txt"; "b.pdf"; "c.md"] ->
     upload_fails (env p) = true \/
     ((exists b, fe_wait (env p) = Ret b) /\ fe_attach (env p) = Ret tt)).
  { intros p Hp. simpl in Hp.
    destruct Hp as [<- | [<- | [<- | []]]]; simpl;
      [right; split; [exists false|]; reflexivity | left; reflexivity
      | right; split; [exists false|]; reflexivity]. }
  split; [exact Hok | exact (ingest_loop_upload_failures "kb1" env _ Hok)].
Defined.

(** C4: for an entry whose upload returns [file_id] and whose wait returns
    [false] (failed or timed out), the loop still calls [add_to_knowledge]
    with [file_id]; when that call returns, the entry is counted in
    [succeeded] and [failed] is unchanged. *)
Theorem ingest_step_wait_false (kb_id : string) (env : string -> file_env)
        (st : loop_state) (p file_id : string) :
  fe_upload (env p) = Ret file_id -> fe_wait (env p) = Ret false ->
  ingest_step kb_id env st p =
    match fe_attach (env p) with
    | Ret _ => mkLoopState (S (succeeded st)) (failed st)
                 (calls st ++ [CUpload p; CWaitFor file_id; CAttach kb_id file_id])
    | Raise => mkLoopState (succeeded st) (S (failed st))
                 (calls st ++ [CUpload p; CWaitFor file_id; CAttach kb_id file_id])
    end.
Proof.
  intros Hu Hw. unfold ingest_step, process_file. rewrite Hu, Hw.
  destruct (fe_attach (env p)); reflexivity.
Qed.

Lemma ingest_step_wait_false_witness :
  let env := fun _ : string => mkFileEnv (Ret "f1") (Ret false) (Ret tt) in
  fe_upload (env "a.txt") = Ret "f1" /\ fe_wait (env "a.txt") = Ret false /\
  ingest_step "kb1" env loop_start "a.txt" =
    match fe_attach (env "a.txt") with
    | Ret _ => mkLoopState (S (succeeded loop_start)) (failed loop_start)
                 (calls loop_start ++ [CUpload "a.txt"; CWaitFor "f1"; CAttach "kb1" "f1"])
    | Raise => mkLoopState (succeeded loop_start) (S (failed loop_start))
                 (calls loop_start ++ [CUpload "a.txt"; CWaitFor "f1"; CAttach "kb1" "f1"])
    end.
Proof.
  intros env. split; [reflexivity | split; [reflexivity |]].
  apply (ingest_step_wait_false "kb1" env loop_start "a.txt" "f1"); reflexivity.
Defined.

Lemma ingest_step_one_counter (kb_id : string) (env : string -> file_env)
      (st : loop_state) (p : string) :
  let st' := ingest_step kb_id env st p in
  (succeeded st' = S (succeeded st) /\ failed st' = failed st) \/
  (succeeded st' = succeeded st /\ failed st' = S (failed st)).
Proof.
  unfold ingest_step. destruct (process_file kb_id p (env p)) as [[|] cs]; simpl; auto.
Qed.

Lemma ingest_loop_sum (kb_id : string) (env : string -> file_env)
      (files : list string) (st : loop_state) :
  let st' := ingest_loop kb_id env files st in
  succeeded st' + failed st' = succeeded st + failed st + length files.
Proof.
  revert st. induction files as [|p ps IH]; intros st; cbv zeta; [simpl; lia|].
  rewrite ingest_loop_cons, IH. simpl length.
  destruct (ingest_step_one_counter kb_id env st p) as [[H1 H2] | [H1 H2]];
    rewrite H1, H2; lia.
Qed.

(** C9: every entry increments exactly one of the two counters; after the
    first [k] entries of the catalog (the state of the loop at that point),
    [succeeded + failed] is the number of entries processed, and after the
    whole catalog it is its length N. *)
Theorem ingest_loop_counter_invariant (kb_id : string) (env : string -> file_env)
        (files : list string) :
  (forall st p,
     let st' := ingest_step kb_id env st p in
     (succeeded st' = S (succeeded st) /\ failed st' = failed st) \/
     (succeeded st' = succeeded st /\ failed st' = S (failed st))) /\
  (forall k,
     let st := ingest_loop kb_id env (firstn k files) loop_start in
     succeeded st + failed st = length (firstn k files)) /\
  (let st := ingest_loop kb_id env files loop_start in
   succeeded st + failed st = length files).
Proof.
  split; [intros st p; apply ingest_step_one_counter|].
  split; [intros k; simpl | simpl]; rewrite ingest_loop_sum; reflexivity.
Qed.

(** ** The collection listing: claims C3, C7, C8 and C10 *)

Example repr_names :
  py_repr_list ["docs"; "it's"; "a\b"] =
  ("['docs', " ++ String dquote ("it's" ++ String dquote ", 'a\\b']"))%string.
Proof. reflexivity. Qed.

Example rag_query_missing :
  rag_query "what is X?" "docs" "gemma3:27b"
    (Ret (Wrapped [mkKb "k1" "notes"; mkKb "k2" "papers"])) (Ret "X is ...")
  = (Ret "Collection 'docs' not found. Available: ['notes', 'papers']", [CListKnowledge]).
Proof. reflexivity. Qed.

Lemma find_by_name_spec (name : string) (kbs : list kb) :
  match find_by_name name kbs with
  | None => forall k, In k kbs -> kb_name k <> name
  | Some id => exists pre k post,
      kbs = pre ++ k :: post /\ kb_name k = name /\ kb_id k = id /\
      forall k', In k' pre -> kb_name k' <> name
  end.
Proof.
  induction kbs as [|k kbs IH]; simpl; [tauto|].
  destruct (String.eqb_spec (kb_name k) name) as [Heq | Hne].
  - exists [], k, kbs. simpl. repeat split; auto.
  - destruct (find_by_name name kbs) as [id|].
    + destruct IH as (pre & k' & post & -> & Hn & Hi & Hpre).
      exists (k :: pre), k', post. simpl. repeat split; auto.
      intros k'' [<- | Hin]; auto.
    + intros k' [<- | Hin]; auto.
Qed.

Lemma next_id_find (name : string) (kbs : list kb) :
  next_id name kbs = find_by_name name kbs.
Proof. induction kbs as [|k kbs IH]; simpl; [reflexivity|]. rewrite IH. reflexivity. Qed.

(** On a raw array, [get_or_create_knowledge] behaves as C3 states: the id
    of the first element named [name] and no create call, or exactly one
    create call whose reported id is returned. *)
Lemma get_or_create_raw (name : string) (kbs : list kb) (create : outcome string) :
  ((exists k, In k kbs /\ kb_name k = name) ->
   exists k, In k kbs /\ kb_name k = name /\
     get_or_create_knowledge name (Ret (Raw kbs)) create = (Ret (kb_id k), [CListKnowledge])) /\
  ((forall k, In k kbs -> kb_name k <> name) ->
   get_or_create_knowledge name (Ret (Raw kbs)) create =
     (create, [CListKnowledge; CCreateKnowledge name (kb_description name)])).
Proof.
  pose proof (find_by_name_spec name kbs) as Hs. unfold get_or_create_knowledge.
  destruct (find_by_name name kbs) as [id|].
  - destruct Hs as (pre & k & post & -> & Hn & Hi & _). split.
    + intros _. exists k. rewrite Hi. repeat split; auto.
      apply in_or_app. right. left. reflexivity.
    + intros Hall. exfalso. apply (Hall k); auto.
      apply in_or_app. right. left. reflexivity.
  - split; [|reflexivity].
    intros (k & Hin & Hn). exfalso. exact (Hs k Hin Hn).
Qed.

(** On a raw array, the ingestion lookup selects the first element with
    the requested name. *)
Lemma get_or_create_raw_first (name : string) (pre post : list kb) (k : kb)
      (create : outcome string) :
  (forall k', In k' pre -> kb_name k' <> name) -> kb_name k = name ->
  get_or_create_knowledge name (Ret (Raw (pre ++ k :: post))) create =
    (Ret (kb_id k), [CListKnowledge]).
Proof.
  intros Hpre Hk. unfold get_or_create_knowledge.
  assert (E : find_by_name name (pre ++ k :: post) = Some (kb_id k)).
  { induction pre as [|k0 pre IH]; simpl.
    - rewrite Hk, String.eqb_refl. reflexivity.
    - destruct (String.eqb_spec (kb_name k0) name) as [He | _].
      + exfalso. apply (Hpre k0); [left|]; auto.
      + apply IH. intros k' Hin. apply Hpre. right. exact Hin. }
  rewrite E. reflexivity.
Qed.

Lemma string_append_assoc (a b c : string) :
  (a ++ (b ++ c) = (a ++ b) ++ c)%string.
Proof. induction a as [|x a IH]; simpl; [reflexivity|]. rewrite IH. reflexivity. Qed.

Lemma string_append_empty (a : string) : (a ++ "")%string = a.
Proof. induction a as [|x a IH]; simpl; [reflexivity|]. rewrite IH. reflexivity. Qed.

(** Each element of a joined list occurs in the join. *)
Lemma concat_contains (sep x : string) (xs : list string) :
  In x xs -> exists pre post, String.concat sep xs = (pre ++ x ++ post)%string.
Proof.
  induction xs as [|y xs IH]; intros Hin; [destruct Hin|].
  destruct xs as [|z zs].
  - destruct Hin as [<- | []]. exists ""%string, ""%string. simpl.
    rewrite string_append_empty. reflexivity.
  - destruct Hin as [<- | Hin].
    + exists ""%string, (sep ++ String.concat sep (z :: zs))%string. reflexivity.
    + destruct (IH Hin) as (pre & post & E).
      change (String.concat sep (y :: z :: zs))
        with (y ++ sep ++ String.concat sep (z :: zs))%string.
      rewrite E. exists (y ++ sep ++ pre)%string, post.
      rewrite <- !string_append_assoc. reflexivity.
Qed.

Lemma not_found_msg_lists (name : string) (names : list string) (x : string) :
  In x names ->
  exists pre post, not_found_msg name names = (pre ++ py_repr_str x ++ post)%string.
Proof.
  intros Hin.
  destruct (concat_contains ", " (py_repr_str x) (map py_repr_str names)
              (in_map py_repr_str _ _ Hin)) as (pre & post & E).
  unfold not_found_msg, py_repr_list. rewrite E.
  exists ("Collection '" ++ name ++ "' not found. Available: " ++ "[" ++ pre)%string,
         (post ++ "]")%string.
  rewrite <- !string_append_assoc. reflexivity.
Qed.

(** C8: on a listing with no collection named [collection_name],
    [rag_query] returns (raises nothing) the not-found message, which
    holds the [repr] of the name of every collection of the listing, and
    the only call made is the listing call; when a collection has that
    name, it sends one completion request scoped to the id of a collection
    with that name and returns the completion's text as it comes. *)
Theorem rag_query_not_found_or_forward (question collection_name model : string)
        (data : listing) (completion : outcome string) :
  ((forall k, In k (listing_items data) -> kb_name k <> collection_name) ->
   rag_query question collection_name model (Ret data) completion =
     (Ret (not_found_msg collection_name (map kb_name (listing_items data))), [CListKnowledge]) /\
   forall k, In k (listing_items data) ->
     exists pre post,
       not_found_msg collection_name (map kb_name (listing_items data)) =
       (pre ++ py_repr_str (kb_name k) ++ post)%string) /\
  ((exists k, In k (listing_items data) /\ kb_name k = collection_name) ->
   exists k, In k (listing_items data) /\ kb_name k = collection_name /\
     rag_query question collection_name model (Ret data) completion =
       (completion, [CListKnowledge; CComplete model question (kb_id k)])).
Proof.
  pose proof (find_by_name_spec collection_name (listing_items data)) as Hs.
  unfold rag_query. rewrite next_id_find.
  destruct (find_by_name collection_name (listing_items data)) as [id|].
  - destruct Hs as (pre & k & post & Hl & Hn & Hi & _).
    assert (Hk : In k (listing_items data))
      by (rewrite Hl; apply in_or_app; right; left; reflexivity).
    split.
    + intros Hall. exfalso. exact (Hall k Hk Hn).
    + intros _. exists k. rewrite Hi. repeat split; auto.
  - split.
    + intros _. split; [reflexivity|].
      intros k Hk. apply not_found_msg_lists. apply in_map. exact Hk.
    + intros (k & Hin & Hn). exfalso. exact (Hs k Hin Hn).
Qed.

Lemma rag_query_not_found_or_forward_witness :
  rag_query "what is X?" "docs" "gemma3:27b"
    (Ret (Wrapped [mkKb "k1" "notes"; mkKb "k2" "papers"])) (Ret "X is ...") =
  (Ret (not_found_msg "docs" ["notes"; "papers"]), [CListKnowledge]).
Proof.
  assert (Hnone : forall k, In k (listing_items (Wrapped [mkKb "k1" "notes"; mkKb "k2" "papers"])) ->
                          kb_name k <> "docs").
  { intros k Hk. simpl in Hk. destruct Hk as [<- | [<- | []]]; simpl; discriminate. }
  exact (proj1 (proj1 (rag_query_not_found_or_forward "what is X?" "docs" "gemma3:27b"
                  (Wrapped [mkKb "k1" "notes"; mkKb "k2" "papers"]) (Ret "X is ...")) Hnone)).
Defined.

(** The query tool reads both shapes of the listing. *)
Lemma list_collections_items (data : listing) :
  list_collections (Ret data) =
    (Ret (map (fun k => (kb_id k, kb_name k)) (listing_items data)), [CListKnowledge]).
Proof. reflexivity. Qed.

(** The query tool resolves a name to the first element carrying it. *)
Lemma rag_query_first (question collection_name model : string)
      (pre post : list kb) (k : kb) (wrapped : bool) (completion : outcome string) :
  (forall k', In k' pre -> kb_name k' <> collection_name) -> kb_name k = collection_name ->
  rag_query question collection_name model
    (Ret (if wrapped then Wrapped (pre ++ k :: post) else Raw (pre ++ k :: post))) completion =
  (completion, [CListKnowledge; CComplete model question (kb_id k)]).
Proof.
  intros Hpre Hk.
  assert (E : next_id collection_name (pre ++ k :: post) = Some (kb_id k)).
  { rewrite next_id_find. induction pre as [|k0 pre IH]; simpl.
    - rewrite Hk, String.eqb_refl. reflexivity.
    - destruct (String.eqb_spec (kb_name k0) collection_name) as [He | _].
      + exfalso. apply (Hpre k0); [left|]; auto.
      + apply IH. intros k' Hin. apply Hpre. right. exact Hin. }
  destruct wrapped; unfold rag_query; simpl; rewrite E; reflexivity.
Qed.

(** C3, at a listing in the [{"items": [...]}] shape holding a collection
    named "docs": [get_or_create_knowledge "docs"] raises after the listing
    call instead of returning "k1". *)
Theorem get_or_create_wrapped_match_raises :
  get_or_create_knowledge "docs" (Ret (Wrapped [mkKb "k1" "docs"])) (Ret "k9") =
  (Raise, [CListKnowledge]).
Proof. reflexivity. Qed.

(** C7, at the listing [{"items": [{"id": "k1", "name": "docs"}]}]: both
    consumers of the query tool extract [{k1, docs}], the ingestion's
    collection resolution raises. *)
Theorem wrapped_listing_consumers :
  let data := Wrapped [mkKb "k1" "docs"] in
  list_collections (Ret data) = (Ret [("k1", "docs")], [CListKnowledge]) /\
  rag_query "what is X?" "docs" "gemma3:27b" (Ret data) (Ret "answer") =
    (Ret "answer", [CListKnowledge; CComplete "gemma3:27b" "what is X?" "k1"]) /\
  get_or_create_knowledge "docs" (Ret data) (Ret "k9") = (Raise, [CListKnowledge]).
Proof. repeat split. Qed.

(** C10, at [{"items": [{"id": "k1", "name": "docs"}, {"id": "k2", "name": "docs"}]}]:
    [rag_query] selects "k1", the first of the two, while the ingestion's
    resolution raises and selects nothing. *)
Theorem duplicate_names_wrapped :
  let data := Wrapped [mkKb "k1" "docs"; mkKb "k2" "docs"] in
  rag_query "what is X?" "docs" "gemma3:27b" (Ret data) (Ret "answer") =
    (Ret "answer", [CListKnowledge; CComplete "gemma3:27b" "what is X?" "k1"]) /\
  get_or_create_knowledge "docs" (Ret data) (Ret "k9") = (Raise, [CListKnowledge]).
Proof. split; reflexivity. Qed.

(** ** Extensions and catalog: claim C5 *)

Example suffix_examples :
  map path_suffix ["a.txt"; "b.tar.gz"; ".bashrc"; "noext"; "trail."; "X.PDF"] =
  [".txt"; ".gz"; ""; ""; ""; ".PDF"].
Proof. reflexivity. Qed.

Example catalog_example :
  collect_files [mkEntry "skip.exe" true; mkEntry "b.pdf" true; mkEntry "sub" false;
                 mkEntry "a.txt" true; mkEntry "sub/C.MD" true]
                (extension_set None) = ["a.txt"; "b.pdf"; "sub/C.MD"].
Proof. reflexivity. Qed.

Example extension_set_example :
  extension_set (Some "log,.yaml") = DEFAULT_EXTENSIONS ++ [".log"; ".yaml"].
Proof. reflexivity. Qed.

(** Every member of the effective set starts with a dot. *)
Lemma extension_set_dot_prefixed (ext : option string) (x : string) :
  In x (extension_set ext) -> starts_with_dot x = true.
Proof.
  assert (Hd : forall y, In y DEFAULT_EXTENSIONS -> starts_with_dot y = true).
  { intros y Hy. simpl in Hy.
    repeat (destruct Hy as [<- | Hy]; [reflexivity|]). destruct Hy. }
  unfold extension_set. destruct ext as [[|c e]|]; auto.
  intros Hin. apply in_app_or in Hin. destruct Hin as [Hin | Hin]; auto.
  apply in_map_iff in Hin. destruct Hin as (y & <- & _).
  destruct (starts_with_dot y) eqn:E; [exact E|]. reflexivity.
Qed.

(** The catalog filter is membership of the lower-cased suffix. *)
Lemma collect_files_filter (extensions : list string) (e : fs_entry) :
  matches_ext extensions e = true <->
  en_is_file e = true /\ In (lower (path_suffix (path_name (en_path e)))) extensions.
Proof.
  unfold matches_ext, set_mem. rewrite andb_true_iff, existsb_exists.
  split.
  - intros (Hf & y & Hy & Heq). apply String.eqb_eq in Heq. subst. auto.
  - intros (Hf & Hin). split; auto. exists (lower (path_suffix (path_name (en_path e)))).
    split; auto. apply String.eqb_refl.
Qed.

(** C5, at [--ext LOG]: the effective set holds [".LOG"], which is not
    lower-cased, and the file [app.LOG] is left out of the catalog. *)
Theorem extension_set_keeps_case :
  set_mem ".LOG" (extension_set (Some "LOG")) = true /\
  lower ".LOG" <> ".LOG" /\
  collect_files [mkEntry "app.LOG" true] (extension_set (Some "LOG")) = [].
Proof. split; [reflexivity | split; [discriminate | reflexivity]]. Qed.

(** ** [main]: claim C6 *)

Example dry_run_lists :
  main dry_args None [mkEntry "a.txt" true; mkEntry "b.pdf" true; mkEntry "skip.exe" true]
       no_backend =
  mkRun 0 ["Found 2 file(s) to ingest into 'docs':"; "  a.txt"; "  b.pdf"] [].
Proof. reflexivity. Qed.

Example full_run_new_collection :
  let net := mkNet (Ret (Raw [mkKb "k0" "other"])) (Ret "k1")
                   (fun p => mkFileEnv (Ret ("f-" ++ p)%string) (Ret true) (Ret tt)) in
  main (mkArgs "docs" true "http://h:3000/" None (Some "sk-1") None false) None
       [mkEntry "a.txt" true; mkEntry "b.pdf" true] net =
  mkRun 0
    (["Found 2 file(s) to ingest into 'docs':"; "  a.txt"; "  b.pdf"; ""] ++
     summary_lines 2 0 "docs" "k1" "http://h:3000")
    [CListKnowledge; CCreateKnowledge "docs" "Ingested from local folder: docs";
     CUpload "a.txt"; CWaitFor "f-a.txt"; CAttach "k1" "f-a.txt";
     CUpload "b.pdf"; CWaitFor "f-b.pdf"; CAttach "k1" "f-b.pdf"].
Proof. reflexivity. Qed.

(** C6, refuted: a dry run on a valid root whose catalog is empty exits
    with status 1. *)
Lemma main_dry_run_empty_catalog_exits_1 :
  exit_status (main dry_args None [mkEntry "skip.exe" true] no_backend) = 1%Z.
Proof. reflexivity. Qed.

(** C6, as the code has it: a dry run on a valid root makes no network
    call; when the catalog is non-empty it prints the catalog, one line per
    entry after the header, and exits with status 0; when the catalog is
    empty it prints nothing to stdout and exits with status 1. *)
Theorem main_dry_run (args : cli_args) (env_api_key : option string)
        (tree : list fs_entry) (net : net_env) :
  arg_folder_is_dir args = true -> arg_dry_run args = true ->
  let files := collect_files tree (extension_set (arg_ext args)) in
  let r := main args env_api_key tree net in
  network r = [] /\
  (files = [] -> exit_status r = 1%Z /\ stdout r = []) /\
  (files <> [] ->
   exit_status r = 0%Z /\
   stdout r = found_line (length files) (py_or (arg_collection args) (arg_folder_name args))
              :: map (fun f => "  " ++ f)%string files).
Proof.
  intros Hdir Hdry files r. subst files r. unfold main.
  rewrite Hdir, Hdry. simpl negb. rewrite andb_false_r.
  destruct (collect_files tree (extension_set (arg_ext args))) as [|f fs].
  - simpl. split; [reflexivity|]. split; intros H; [split; reflexivity | congruence].
  - simpl. split; [reflexivity|]. split; intros H; [discriminate | split; reflexivity].
Qed.

Lemma main_dry_run_witness :
  arg_folder_is_dir dry_args = true /\ arg_dry_run dry_args = true /\
  (let files := collect_files [mkEntry "a.txt" true] (extension_set (arg_ext dry_args)) in
   let r := main dry_args None [mkEntry "a.txt" true] no_backend in
   network r = [] /\
   (files = [] -> exit_status r = 1%Z /\ stdout r = []) /\
   (files <> [] ->
    exit_status r = 0%Z /\
    stdout r = found_line (length files) (py_or (arg_collection dry_args) (arg_folder_name dry_args))
               :: map (fun f => "  " ++ f)%string files)).
Proof.
  split; [reflexivity | split; [reflexivity |]].
  apply (main_dry_run dry_args None [mkEntry "a.txt" true] no_backend); reflexivity.
Defined.

(* ================================================================== *)
(** * Further properties of the code *)

(** ** The catalog is sorted and loses nothing *)

(** [p <= q] in [Path] order. *)
Definition path_le (p q : string) : Prop := parts_ltb (path_parts q) (path_parts p) = false.

Lemma parts_ltb_asym (a b : list string) :
  parts_ltb a b = true -> parts_ltb b a = false.
Proof.
  revert b. induction a as [|x a IH]; intros [|y b]; simpl; try discriminate; auto.
  rewrite (String.compare_antisym y x).
  destruct (String.compare x y); simpl; auto; discriminate.
Qed.

Lemma insert_path_hd (q p : string) (ps : list string) :
  HdRel path_le q ps -> path_le q p -> HdRel path_le q (insert_path p ps).
Proof.
  intros Hq Hqp. destruct ps as [|r ps]; simpl.
  - constructor. exact Hqp.
  - destruct (parts_ltb (path_parts r) (path_parts p)); constructor; auto.
    inversion Hq; assumption.
Qed.

Lemma insert_path_sorted (p : string) (ps : list string) :
  Sorted path_le ps -> Sorted path_le (insert_path p ps).
Proof.
  induction ps as [|q ps IH]; intros Hs; simpl.
  - repeat constructor.
  - inversion Hs as [|? ? Hs' Hhd]; subst.
    destruct (parts_ltb (path_parts q) (path_parts p)) eqn:E.
    + constructor; [apply IH; exact Hs'|].
      apply insert_path_hd; [exact Hhd|]. unfold path_le.
      apply parts_ltb_asym. exact E.
    + constructor; [exact Hs | constructor; exact E].
Qed.

Lemma insert_path_perm (p : string) (ps : list string) :
  Permutation (p :: ps) (insert_path p ps).
Proof.
  induction ps as [|q ps IH]; simpl; [reflexivity|].
  destruct (parts_ltb (path_parts q) (path_parts p)); [|reflexivity].
  rewrite perm_swap. constructor. exact IH.
Qed.

(** X1: [collect_files] returns, in [Path] order, exactly the paths of the
    regular files whose lower-cased suffix is in the extension set, each
    as often as [rglob] yields it. *)
Theorem collect_files_sorted_perm (tree : list fs_entry) (extensions : list string) :
  Sorted path_le (collect_files tree extensions) /\
  Permutation (map en_path (filter (matches_ext extensions) tree))
              (collect_files tree extensions).
Proof.
  unfold collect_files, sort_paths.
  induction (map en_path (filter (matches_ext extensions) tree)) as [|p ps [IHs IHp]];
    simpl; [split; constructor|].
  split; [apply insert_path_sorted; exact IHs|].
  rewrite <- insert_path_perm. constructor. exact IHp.
Qed.

(** ** [str.split] and [str.rstrip] *)

Lemma split_on_not_nil (sep : ascii) (s : string) : split_on sep s <> [].
Proof.
  destruct s as [|c s]; simpl; [discriminate|].
  destruct (Ascii.eqb c sep); [discriminate|].
  destruct (split_on sep s); discriminate.
Qed.

(** X2: joining the pieces of [s.split(sep)] with [sep] gives back [s],
    and no piece contains [sep]. *)
Theorem split_on_join (sep : ascii) (s : string) :
  String.concat (String sep EmptyString) (split_on sep s) = s /\
  Forall (fun w => has_char sep w = false) (split_on sep s).
Proof.
  induction s as [|c s [IHj IHf]]; simpl.
  - split; [reflexivity | repeat constructor].
  - pose proof (split_on_not_nil sep s) as Hne.
    destruct (Ascii.eqb_spec c sep) as [-> | Hc].
    + split; [|constructor; [reflexivity | exact IHf]].
      destruct (split_on sep s) as [|w ws]; [congruence|].
      rewrite <- IHj. reflexivity.
    + destruct (split_on sep s) as [|w ws] eqn:E; [congruence|].
      inversion IHf as [|? ? Hw Hws]; subst.
      split.
      * destruct ws as [|w' ws']; reflexivity.
      * constructor; [|exact Hws]. simpl.
        apply orb_false_iff. split; [|exact Hw].
        apply Ascii.eqb_neq. congruence.
Qed.

Definition slashes (k : nat) : string := repeat_str k (String slash EmptyString).

(** X3: [s.rstrip("/")] removes exactly a run of trailing slashes: [s] is
    the result followed by slashes, and the result does not end in one. *)
Theorem rstrip_slash_spec (s : string) :
  (exists k, s = (rstrip_slash s ++ slashes k)%string) /\
  forall pre, rstrip_slash s <> (pre ++ String slash EmptyString)%string.
Proof.
  induction s as [|c s [[k Hk] Hend]]; simpl.
  - split; [exists 0; reflexivity|]. intros [|x pre]; discriminate.
  - destruct (rstrip_slash s) as [|x r] eqn:E.
    + destruct (Ascii.eqb_spec c slash) as [-> | Hc].
      * split; [exists (S k); simpl in *; rewrite Hk at 1; reflexivity|].
        intros [|y pre]; discriminate.
      * split; [exists k; simpl in *; rewrite Hk at 1; reflexivity|].
        intros [|y [|z pre]] H; simpl in H; inversion H; congruence.
    + split; [exists k; simpl; rewrite Hk at 1; reflexivity|].
      intros [|y pre] H; simpl in H; inversion H as [[Hy Hr]]; subst.
      eapply Hend; eassumption.
Qed.

(** ** [str.lower] *)



(** ** [PurePath.suffix] *)

Lemma string_length_app (a b : string) :
  String.length (a ++ b) = String.length a + String.length b.
Proof. induction a as [|c a IH]; simpl; [reflexivity|]. rewrite IH. reflexivity. Qed.

Lemma rfind_dot_nodot (i : nat) (s : string) (best : option nat) :
  has_char dot s = false -> rfind_dot_from i s best = best.
Proof.
  revert i best. induction s as [|c s IH]; intros i best H; [reflexivity|].
  cbn [has_char rfind_dot_from] in *.
  apply orb_false_iff in H. destruct H as [H1 H2].
  destruct (Ascii.eqb_spec c dot) as [-> | _]; [rewrite Ascii.eqb_refl in H1; discriminate|].
  apply IH. exact H2.
Qed.

Lemma rfind_dot_last (i : nat) (a b : string) (best : option nat) :
  has_char dot b = false ->
  rfind_dot_from i (a ++ String dot b) best = Some (i + String.length a).
Proof.
  revert i best. induction a as [|c a IH]; intros i best Hb;
    cbn [String.append rfind_dot_from String.length].
  - rewrite Ascii.eqb_refl, rfind_dot_nodot by exact Hb. f_equal. lia.
  - rewrite IH by exact Hb. f_equal. lia.
Qed.

Lemma rfind_dot_some (i : nat) (s : string) (best : option nat) (j : nat) :
  rfind_dot_from i s best = Some j ->
  (exists a b, s = (a ++ String dot b)%string /\ j = i + String.length a /\
               has_char dot b = false) \/
  (has_char dot s = false /\ best = Some j).
Proof.
  revert i best. induction s as [|c s IH]; intros i best H;
    cbn [rfind_dot_from has_char String.append String.length] in *.
  - right. split; auto.
  - destruct (IH _ _ H) as [(a & b & -> & Hj & Hb) | (Hs & Hbest)].
    + left. exists (String c a), b. cbn [String.append String.length].
      split; [reflexivity | split; [lia | exact Hb]].
    + destruct (Ascii.eqb_spec c dot) as [-> | Hc].
      * left. exists EmptyString, s. cbn [String.append String.length].
        inversion Hbest. split; [reflexivity | split; [lia | exact Hs]].
      * right. split; [|exact Hbest]. rewrite Hs, orb_false_r.
        apply Ascii.eqb_neq. congruence.
Qed.

Lemma substring_app (a t : string) (m : nat) :
  substring (String.length a) m (a ++ t) = substring 0 m t.
Proof. induction a as [|c a IH]; simpl; [reflexivity | exact IH]. Qed.

Lemma substring_all (t : string) : substring 0 (String.length t) t = t.
Proof. induction t as [|c t IH]; simpl; [reflexivity|]. rewrite IH. reflexivity. Qed.

(** X5: [Path.suffix] is empty or starts with a dot, and it is [.tail]
    exactly when the name is [pre + "." + tail] with [pre] and [tail] not
    empty and no dot in [tail]: the last dot counts, a leading dot (hidden
    file) or a trailing dot gives no suffix. *)
Theorem path_suffix_spec (name : string) :
  (path_suffix name = EmptyString \/ exists tail, path_suffix name = String dot tail) /\
  forall tail,
    path_suffix name = String dot tail <->
    exists pre, name = (pre ++ String dot tail)%string /\ pre <> EmptyString /\
                tail <> EmptyString /\ has_char dot tail = false.
Proof.
  unfold path_suffix.
  destruct (rfind_dot_from 0 name None) as [i|] eqn:E.
  - destruct (rfind_dot_some _ _ _ _ E) as [(a & b & Hn & Hi & Hb) | (_ & Hbad)];
      [|discriminate].
    simpl in Hi. subst i.
    assert (Hsub : substring (String.length a) (String.length name - String.length a) name
                   = String dot b).
    { assert (Hl0 : String.length name - String.length a = String.length (String dot b))
        by (rewrite Hn, string_length_app; lia).
      rewrite Hl0, Hn, substring_app. apply substring_all. }
    rewrite Hsub.
    assert (Hlen : String.length name = String.length a + S (String.length b))
      by (rewrite Hn, string_length_app; reflexivity).
    destruct ((0 <? String.length a) && (String.length a <? String.length name - 1))%nat eqn:C.
    + apply andb_true_iff in C. destruct C as [C1 C2].
      apply Nat.ltb_lt in C1, C2.
      split; [right; exists b; reflexivity|].
      intros tail. split.
      * intros H. inversion H; subst tail. exists a.
        repeat split; auto.
        -- intros ->. simpl in C1. lia.
        -- intros ->. simpl in Hlen. lia.
      * intros (pre & Hn' & Hpre & Ht & Hnt).
        pose proof (rfind_dot_last 0 pre tail None Hnt) as L2.
        rewrite <- Hn', E in L2. inversion L2 as [Hla]. simpl in Hla.
        assert (Hb' : b = tail).
        { rewrite Hn in Hn'. clear -Hn' Hla. revert pre Hn' Hla.
          induction a as [|c a IH]; intros [|c' pre] Hn Hla;
            cbn [String.append String.length] in *; try discriminate.
          - injection Hn as Hn. exact Hn.
          - injection Hn as _ Hn. apply (IH pre Hn). lia. }
        subst. reflexivity.
    + split; [left; reflexivity|].
      intros tail. split; [discriminate|].
      intros (pre & Hn' & Hpre & Ht & Hnt).
      pose proof (rfind_dot_last 0 pre tail None Hnt) as L2.
      rewrite <- Hn', E in L2. inversion L2 as [Hla]. simpl in Hla.
      apply andb_false_iff in C.
      assert (Hl2 : String.length name = String.length pre + S (String.length tail))
        by (rewrite Hn', string_length_app; reflexivity).
      destruct tail as [|t tail]; [congruence|].
      destruct pre as [|p pre]; [congruence|].
      simpl in Hl2. simpl in Hla.
      destruct C as [C | C]; apply Nat.ltb_ge in C; lia.
  - split; [left; reflexivity|].
    intros tail. split; [discriminate|].
    intros (pre & Hn' & _ & _ & Hnt).
    pose proof (rfind_dot_last 0 pre tail None Hnt) as L2.
    rewrite <- Hn', E in L2. discriminate.
Qed.

(** ** The batch loop, for any answers of the backend *)

Lemma ingest_loop_calls (kb_id : string) (env : string -> file_env)
      (files : list string) (st : loop_state) :
  calls (ingest_loop kb_id env files st) =
  calls st ++ flat_map (fun p => snd (process_file kb_id p (env p))) files.
Proof.
  revert st. induction files as [|p ps IH]; intros st; [simpl; rewrite app_nil_r; reflexivity|].
  rewrite ingest_loop_cons, IH. cbn [flat_map]. unfold ingest_step.
  destruct (process_file kb_id p (env p)) as [ok cs]; destruct ok; simpl;
    rewrite <- app_assoc; reflexivity.
Qed.

Lemma process_file_fst (kb_id p : string) (e : file_env) :
  fst (process_file kb_id p e) = entry_ok e.
Proof.
  unfold process_file, entry_ok.
  destruct (fe_upload e), (fe_wait e); try destruct (fe_attach e); reflexivity.
Qed.

Lemma ingest_loop_counts (kb_id : string) (env : string -> file_env)
      (files : list string) (st : loop_state) :
  succeeded (ingest_loop kb_id env files st) =
    succeeded st + length (filter (fun p => entry_ok (env p)) files) /\
  failed (ingest_loop kb_id env files st) =
    failed st + length (filter (fun p => negb (entry_ok (env p))) files).
Proof.
  revert st. induction files as [|p ps IH]; intros st; [simpl; lia|].
  rewrite ingest_loop_cons. destruct (IH (ingest_step kb_id env st p)) as [H1 H2].
  rewrite H1, H2. cbn [filter length].
  pose proof (process_file_fst kb_id p (env p)) as Hf.
  unfold ingest_step. destruct (process_file kb_id p (env p)) as [ok cs].
  simpl in Hf. rewrite <- Hf. destruct ok; simpl; lia.
Qed.

(** X6: whatever the backend answers, the loop attempts exactly one upload
    per catalog entry, in catalog order: no entry is skipped or retried. *)
Theorem ingest_loop_one_upload_each (kb_id : string) (env : string -> file_env)
        (files : list string) :
  filter is_upload (calls (ingest_loop kb_id env files loop_start)) = map CUpload files.
Proof.
  rewrite ingest_loop_calls. simpl. induction files as [|p ps IH]; simpl; [reflexivity|].
  rewrite filter_app, IH. unfold process_file.
  destruct (fe_upload (env p)), (fe_wait (env p)); try destruct (fe_attach (env p));
    reflexivity.
Qed.

(** X7: [succeeded] is the number of entries whose upload, wait and attach
    calls all returned, and [failed] the number of the others. *)
Theorem ingest_loop_succeeded_exact (kb_id : string) (env : string -> file_env)
        (files : list string) :
  let st := ingest_loop kb_id env files loop_start in
  succeeded st = length (filter (fun p => entry_ok (env p)) files) /\
  failed st = length (filter (fun p => negb (entry_ok (env p))) files).
Proof. apply ingest_loop_counts. Qed.

(** X8: the loop waits on the id of every entry whose upload returned and
    on nothing else; it attaches to [kb_id], and to no other collection,
    the id of every entry whose upload and wait returned, once each, in
    catalog order, and attaches nothing else. *)
Theorem ingest_loop_wait_attach_calls (kb_id : string) (env : string -> file_env)
        (files : list string) :
  let cs := calls (ingest_loop kb_id env files loop_start) in
  filter is_wait cs =
    map (fun p => CWaitFor (uploaded_id (env p)))
        (filter (fun p => negb (upload_fails (env p))) files) /\
  filter is_attach cs =
    map (fun p => CAttach kb_id (uploaded_id (env p)))
        (filter (fun p => upload_and_wait_ok (env p)) files).
Proof.
  simpl. rewrite ingest_loop_calls. simpl.
  induction files as [|p ps [IH1 IH2]]; simpl; [split; reflexivity|].
  rewrite !filter_app, IH1, IH2.
  unfold process_file, upload_fails, uploaded_id, upload_and_wait_ok.
  destruct (fe_upload (env p)) eqn:Eu, (fe_wait (env p)) eqn:Ew;
    try destruct (fe_attach (env p)) eqn:Ea; simpl; rewrite ?Eu, ?Ew;
    split; reflexivity.
Qed.

(** ** [main] *)

(** X9: a root that is not a directory, a missing API key outside a dry
    run, or an empty catalog ends the run with status 1 before any output
    on stdout and before any network call. *)
Theorem main_validation_exits (args : cli_args) (env_api_key : option string)
        (tree : list fs_entry) (net : net_env) :
  arg_folder_is_dir args = false \/
  (resolved_api_key args env_api_key = "" /\ arg_dry_run args = false) \/
  collect_files tree (extension_set (arg_ext args)) = [] ->
  main args env_api_key tree net = mkRun 1 [] [].
Proof.
  unfold main. fold (resolved_api_key args env_api_key).
  intros [Hd | [[Hk Hdry] | Hc]].
  - rewrite Hd. reflexivity.
  - destruct (arg_folder_is_dir args); [|reflexivity]. simpl negb.
    rewrite Hk, Hdry. reflexivity.
  - destruct (arg_folder_is_dir args); [|reflexivity]. simpl negb.
    destruct (String.eqb (resolved_api_key args env_api_key) "" && negb (arg_dry_run args));
      [reflexivity|].
    rewrite Hc. reflexivity.
Qed.

Lemma main_validation_exits_witness :
  (arg_folder_is_dir dry_args = false \/
   (resolved_api_key dry_args None = "" /\ arg_dry_run dry_args = false) \/
   collect_files [mkEntry "x.exe" true] (extension_set (arg_ext dry_args)) = []) /\
  main dry_args None [mkEntry "x.exe" true] no_backend = mkRun 1 [] [].
Proof.
  assert (H : arg_folder_is_dir dry_args = false \/
   (resolved_api_key dry_args None = "" /\ arg_dry_run dry_args = false) \/
   collect_files [mkEntry "x.exe" true] (extension_set (arg_ext dry_args)) = [])
    by (right; right; reflexivity).
  split; [exact H | exact (main_validation_exits dry_args None _ no_backend H)].
Defined.

Lemma process_file_no_setup (kb_id p : string) (e : file_env) :
  Forall (fun c => is_setup_call c = false) (snd (process_file kb_id p e)).
Proof.
  unfold process_file.
  destruct (fe_upload e), (fe_wait e); try destruct (fe_attach e); simpl;
    repeat constructor.
Qed.

Lemma loop_no_setup (kb_id : string) (env : string -> file_env) (files : list string) :
  Forall (fun c => is_setup_call c = false) (calls (ingest_loop kb_id env files loop_start)).
Proof.
  rewrite ingest_loop_calls. simpl. induction files as [|p ps IH]; simpl; [constructor|].
  apply Forall_app. split; [apply process_file_no_setup | exact IH].
Qed.

(** X10: the program calls the network only in a run that is not a dry run,
    on a directory, with a non-empty API key and a non-empty catalog. *)
Theorem main_network_only_when_valid (args : cli_args) (env_api_key : option string)
        (tree : list fs_entry) (net : net_env) :
  network (main args env_api_key tree net) <> [] ->
  arg_dry_run args = false /\ arg_folder_is_dir args = true /\
  resolved_api_key args env_api_key <> "" /\
  collect_files tree (extension_set (arg_ext args)) <> [].
Proof.
  unfold main. fold (resolved_api_key args env_api_key).
  destruct (arg_folder_is_dir args); [|simpl; congruence]. simpl negb.
  destruct (String.eqb_spec (resolved_api_key args env_api_key) "") as [Hk | Hk];
    destruct (arg_dry_run args); simpl; try congruence;
    destruct (collect_files tree (extension_set (arg_ext args))); simpl; try congruence;
    intros _; repeat split; auto; discriminate.
Qed.

Lemma main_network_only_when_valid_witness :
  let net := mkNet (Ret (Raw [])) (Ret "k1") (fun _ => mkFileEnv Raise Raise Raise) in
  let args := mkArgs "docs" true "http://h" None (Some "sk") None false in
  network (main args None [mkEntry "a.txt" true] net) <> [] /\
  (arg_dry_run args = false /\ arg_folder_is_dir args = true /\
   resolved_api_key args None <> "" /\
   collect_files [mkEntry "a.txt" true] (extension_set (arg_ext args)) <> []).
Proof.
  intros net args.
  assert (H : network (main args None [mkEntry "a.txt" true] net) <> []) by discriminate.
  split; [exact H | exact (main_network_only_when_valid args None _ net H)].
Defined.

(** X11: the calls of a run are either none, or the listing call first,
    then at most one create call, then only the per-file calls: the
    collection is resolved once, before any upload, and never again. *)
Theorem main_call_order (args : cli_args) (env_api_key : option string)
        (tree : list fs_entry) (net : net_env) :
  network (main args env_api_key tree net) = [] \/
  exists setup rest,
    network (main args env_api_key tree net) = CListKnowledge :: setup ++ rest /\
    (setup = [] \/ exists name desc, setup = [CCreateKnowledge name desc]) /\
    Forall (fun c => is_setup_call c = false) rest.
Proof.
  unfold main.
  destruct (arg_folder_is_dir args); [|left; reflexivity]. simpl negb.
  destruct (_ && _); [left; reflexivity|].
  destruct (collect_files tree (extension_set (arg_ext args))) as [|f fs]; [left; reflexivity|].
  destruct (arg_dry_run args); [left; reflexivity|].
  unfold get_or_create_knowledge.
  destruct (ne_listing net) as [[kbs | kbs]|].
  - destruct (find_by_name _ kbs) as [id|].
    + right. exists [], (calls (ingest_loop id (ne_file net) (f :: fs) loop_start)).
      split; [reflexivity | split; [left; reflexivity | apply loop_no_setup]].
    + destruct (ne_create net) as [id|].
      * right. eexists [CCreateKnowledge _ _], (calls (ingest_loop id (ne_file net) (f :: fs) loop_start)).
        split; [reflexivity | split; [right; eauto | apply loop_no_setup]].
      * right. eexists [CCreateKnowledge _ _], [].
        split; [reflexivity | split; [right; eauto | constructor]].
  - right. exists [], []. split; [reflexivity | split; [left; reflexivity | constructor]].
  - right. exists [], []. split; [reflexivity | split; [left; reflexivity | constructor]].
Qed.

Lemma filter_negb_nil {A} (f : A -> bool) (l : list A) :
  length (filter (fun x => negb (f x)) l) = 0 <-> Forall (fun x => f x = true) l.
Proof.
  induction l as [|x l IH]; simpl; [split; auto|].
  destruct (f x) eqn:E; simpl.
  - rewrite IH. split; [intros H; constructor; auto | intros H; inversion H; auto].
  - split; [discriminate | intros H; inversion H; congruence].
Qed.

(** X12: a run that gets past validation exits with status 0 exactly when
    the collection is resolved and every catalog entry has its upload, wait
    and attach calls return; otherwise it exits with status 1. *)
Theorem main_exit_status (args : cli_args) (env_api_key : option string)
        (tree : list fs_entry) (net : net_env) :
  arg_folder_is_dir args = true -> resolved_api_key args env_api_key <> "" ->
  arg_dry_run args = false -> collect_files tree (extension_set (arg_ext args)) <> [] ->
  (exit_status (main args env_api_key tree net) = 0%Z <->
   (exists kb_id, fst (get_or_create_knowledge (py_or (arg_collection args) (arg_folder_name args))
                                               (ne_listing net) (ne_create net)) = Ret kb_id) /\
   Forall (fun p => entry_ok (ne_file net p) = true)
          (collect_files tree (extension_set (arg_ext args)))).
Proof.
  intros Hd Hk Hdry Hc. unfold main. fold (resolved_api_key args env_api_key).
  rewrite Hd, Hdry. simpl negb.
  destruct (String.eqb_spec (resolved_api_key args env_api_key) "") as [E | _]; [congruence|].
  simpl andb. cbv iota.
  destruct (collect_files tree (extension_set (arg_ext args))) as [|f fs] eqn:Ec; [congruence|].
  rewrite <- Ec.
  destruct (get_or_create_knowledge _ (ne_listing net) (ne_create net)) as [[kb_id|] cs]; simpl.
  - destruct (ingest_loop_counts kb_id (ne_file net)
                (collect_files tree (extension_set (arg_ext args))) loop_start) as [_ Hf].
    simpl in Hf. rewrite Hf.
    rewrite <- filter_negb_nil with (f := fun p => entry_ok (ne_file net p)).
    destruct (length _) as [|n]; simpl.
    + split; [intros _; split; [exists kb_id; reflexivity | reflexivity] | reflexivity].
    + split; [discriminate | intros (_ & H); discriminate].
  - split; [discriminate | intros ((k & Hk') & _); discriminate].
Qed.

Lemma main_exit_status_witness :
  let net := mkNet (Ret (Raw [mkKb "k1" "docs"])) Raise
                   (fun p => mkFileEnv (Ret p) (Ret false) (Ret tt)) in
  let args := mkArgs "docs" true "http://h" None (Some "sk") None false in
  arg_folder_is_dir args = true /\ resolved_api_key args None <> "" /\
  arg_dry_run args = false /\
  collect_files [mkEntry "a.txt" true] (extension_set (arg_ext args)) <> [] /\
  (exit_status (main args None [mkEntry "a.txt" true] net) = 0%Z <->
   (exists kb_id, fst (get_or_create_knowledge (py_or (arg_collection args) (arg_folder_name args))
                                               (ne_listing net) (ne_create net)) = Ret kb_id) /\
   Forall (fun p => entry_ok (ne_file net p) = true)
          (collect_files [mkEntry "a.txt" true] (extension_set (arg_ext args)))).
Proof.
  intros net args.
  assert (H1 : arg_folder_is_dir args = true) by reflexivity.
  assert (H2 : resolved_api_key args None <> "") by discriminate.
  assert (H3 : arg_dry_run args = false) by reflexivity.
  assert (H4 : collect_files [mkEntry "a.txt" true] (extension_set (arg_ext args)) <> [])
    by discriminate.
  split; [exact H1 | split; [exact H2 | split; [exact H3 | split; [exact H4 |]]]].
  exact (main_exit_status args None _ net H1 H2 H3 H4).
Defined.

(** ** Resolving a collection twice *)

(** X13: once [get_or_create_knowledge] has created [name] with id [k]
    (no element of the listing had that name), a later call whose listing
    holds the new collection anywhere among the old ones returns [k] and
    makes no create call. *)
Theorem get_or_create_after_create (name k : string) (pre post : list kb)
        (create' : outcome string) :
  get_or_create_knowledge name (Ret (Raw (pre ++ post))) (Ret k) =
    (Ret k, [CListKnowledge; CCreateKnowledge name (kb_description name)]) ->
  get_or_create_knowledge name (Ret (Raw (pre ++ mkKb k name :: post))) create' =
    (Ret k, [CListKnowledge]).
Proof.
  intros H. pose proof (find_by_name_spec name (pre ++ post)) as Hs.
  unfold get_or_create_knowledge in H.
  destruct (find_by_name name (pre ++ post)) as [id|]; [discriminate|].
  apply (get_or_create_raw_first name pre post (mkKb k name) create'); [|reflexivity].
  intros k' Hin. apply Hs. apply in_or_app. left. exact Hin.
Qed.

Lemma get_or_create_after_create_witness :
  get_or_create_knowledge "docs" (Ret (Raw ([mkKb "k0" "notes"] ++ []))) (Ret "k1") =
    (Ret "k1", [CListKnowledge; CCreateKnowledge "docs" (kb_description "docs")]) /\
  get_or_create_knowledge "docs" (Ret (Raw ([mkKb "k0" "notes"] ++ [mkKb "k1" "docs"]))) Raise =
    (Ret "k1", [CListKnowledge]).
Proof.
  assert (H : get_or_create_knowledge "docs" (Ret (Raw ([mkKb "k0" "notes"] ++ []))) (Ret "k1") =
    (Ret "k1", [CListKnowledge; CCreateKnowledge "docs" (kb_description "docs")]))
    by reflexivity.
  split; [exact H | exact (get_or_create_after_create "docs" "k1" [mkKb "k0" "notes"] [] Raise H)].
Defined.

(** ** [wait_for_processing]: what it reads and how often it polls *)




Lemma wait_loop_poll_bound (d lo : Z) (clock : list Z) (resps : list status_response)
      (o : outcome bool) (tr : list poll_action) :
  spaced lo clock -> wait_loop d clock resps = Some (o, tr) ->
  length (filter is_poll tr) = 0 \/ (2 * Z.of_nat (length (filter is_poll tr)) <= d - lo + 1)%Z.
Proof.
  revert lo resps o tr. induction clock as [|now clock IH]; intros lo resps o tr Hsp H;
    [discriminate|].
  destruct Hsp as [Hlo Hsp]. simpl in H.
  destruct (Z.ltb_spec now d) as [Hlt | Hge]; [|inversion H; subst; left; reflexivity].
  destruct resps as [|x resps]; [discriminate|].
  destruct (sr_code x =? 404)%Z;
    [inversion H; subst; right; simpl; lia|].
  destruct (raise_for_status (sr_code x));
    [inversion H; subst; right; simpl; lia|].
  destruct (String.eqb _ "completed"); [inversion H; subst; right; simpl; lia|].
  destruct (String.eqb _ "failed"); [inversion H; subst; right; simpl; lia|].
  destruct (wait_loop d clock resps) as [[o' tr']|] eqn:E; [|discriminate].
  inversion H; subst. simpl.
  destruct (IH _ _ _ _ Hsp E) as [H0 | H0]; unfold POLL_INTERVAL in *; right;
    rewrite ?H0; lia.
Qed.

(** X15: when each clock reading of the [while] test is at least the start
    time and at least [POLL_INTERVAL] after the previous one, a wait polls
    the status endpoint at most [POLL_TIMEOUT / POLL_INTERVAL] = 60 times. *)
Theorem wait_for_processing_at_most_60_polls (t0 : Z) (clock : list Z)
        (resps : list status_response) (o : outcome bool) (tr : list poll_action) :
  spaced t0 clock -> wait_for_processing (t0 :: clock) resps = Some (o, tr) ->
  length (filter is_poll tr) <= 60.
Proof.
  intros Hsp H.
  destruct (wait_loop_poll_bound _ _ _ _ _ _ Hsp H) as [H0 | H0];
    unfold POLL_TIMEOUT in *; lia.
Qed.

Lemma wait_for_processing_at_most_60_polls_witness :
  spaced 0 [0; 2; 4]%Z /\
  wait_for_processing [0; 0; 2; 4]%Z
    [mkStatus 200 None; mkStatus 200 None; mkStatus 200 (Some "completed")]
    = Some (Ret true, [Poll; Sleep 2; Poll; Sleep 2; Poll]) /\
  length (filter is_poll [Poll; Sleep 2; Poll; Sleep 2; Poll]) <= 60.
Proof.
  assert (H1 : spaced 0 [0; 2; 4]%Z) by (simpl; unfold POLL_INTERVAL; lia).
  assert (H2 : wait_for_processing [0; 0; 2; 4]%Z
    [mkStatus 200 None; mkStatus 200 None; mkStatus 200 (Some "completed")]
    = Some (Ret true, [Poll; Sleep 2; Poll; Sleep 2; Poll])) by reflexivity.
  split; [exact H1 | split; [exact H2 | exact (wait_for_processing_at_most_60_polls _ _ _ _ _ H1 H2)]].
Defined.

(** ** Formatting: [str(n)] and [repr] *)

Lemma nat_digits_value (fuel n : nat) (acc : string) :
  n < fuel -> dec_value 0 (nat_digits fuel n acc) = dec_value n acc.
Proof.
  revert n acc. induction fuel as [|fuel IH]; intros n acc Hn; [lia|].
  cbn [nat_digits].
  assert (Hd : nat_of_ascii (ascii_of_nat (48 + n mod 10)) = 48 + n mod 10).
  { apply nat_ascii_embedding. pose proof (Nat.mod_upper_bound n 10). lia. }
  destruct (Nat.ltb_spec n 10) as [Hlt | Hge].
  - cbn [dec_value]. rewrite Hd. f_equal. rewrite Nat.mod_small by lia. lia.
  - rewrite IH by (pose proof (Nat.div_lt n 10); lia).
    cbn [dec_value]. rewrite Hd. f_equal.
    pose proof (Nat.div_mod_eq n 10). lia.
Qed.

Lemma nat_digits_digits (fuel n : nat) (acc : string) :
  all_digits acc = true -> all_digits (nat_digits fuel n acc) = true.
Proof.
  revert n acc. induction fuel as [|fuel IH]; intros n acc Ha; [exact Ha|].
  cbn [nat_digits].
  assert (Hd : all_digits (String (ascii_of_nat (48 + n mod 10)) acc) = true).
  { cbn [all_digits]. rewrite nat_ascii_embedding
      by (pose proof (Nat.mod_upper_bound n 10); lia).
    rewrite Ha, andb_true_r. apply andb_true_iff.
    pose proof (Nat.mod_upper_bound n 10). split; apply Nat.leb_le; lia. }
  destruct (n <? 10)%nat; [exact Hd | apply IH; exact Hd].
Qed.

(** X16: [str(n)] as the summary and the header print it is a non-empty
    string of decimal digits whose value is [n]. *)
Theorem py_str_nat_decimal (n : nat) :
  dec_value 0 (py_str_nat n) = n /\ all_digits (py_str_nat n) = true /\
  py_str_nat n <> EmptyString.
Proof.
  unfold py_str_nat. split; [|split].
  - rewrite nat_digits_value by lia. reflexivity.
  - apply nat_digits_digits. reflexivity.
  - cbn [nat_digits]. destruct (n <? 10)%nat; [discriminate|].
    assert (Hne : forall fuel m acc, acc <> EmptyString -> nat_digits fuel m acc <> EmptyString).
    { induction fuel as [|fuel IH]; intros m acc Hacc; [exact Hacc|].
      cbn [nat_digits]. destruct (m <? 10)%nat; [discriminate | apply IH; discriminate]. }
    apply Hne. discriminate.
Qed.

Lemma repr_chars_plain (q : ascii) (s : string) :
  all_plain s = true -> (q = squote \/ q = dquote) ->
  (q = squote -> has_char squote s = false) ->
  concat_map_chars (py_repr_char q) s = s.
Proof.
  intros Hp Hq Hsq. induction s as [|c s IH]; [reflexivity|].
  cbn [all_plain] in Hp. apply andb_true_iff in Hp as [Hc Hp].
  apply andb_true_iff in Hc as [Hc Hdq]. apply andb_true_iff in Hc as [Hpr Hbs].
  apply negb_true_iff in Hbs, Hdq.
  cbn [concat_map_chars]. rewrite IH; [| exact Hp |].
  2: { intros E. specialize (Hsq E). cbn [has_char] in Hsq.
       apply orb_false_iff in Hsq. apply Hsq. }
  unfold py_repr_char. rewrite Hbs.
  assert (Hcq : Ascii.eqb c q = false).
  { destruct Hq as [-> | ->]; [|exact Hdq].
    specialize (Hsq eq_refl). cbn [has_char] in Hsq. apply orb_false_iff in Hsq.
    rewrite Ascii.eqb_sym. apply Hsq. }
  rewrite Hcq.
  unfold py_printable in Hpr. apply negb_true_iff in Hpr.
  repeat rewrite orb_false_iff in Hpr.
  destruct Hpr as [[[Hlt H127] Hhi] H173].
  apply Nat.ltb_ge in Hlt.
  replace (nat_of_ascii c =? 10)%nat with false by (symmetry; apply Nat.eqb_neq; lia).
  replace (nat_of_ascii c =? 13)%nat with false by (symmetry; apply Nat.eqb_neq; lia).
  replace (nat_of_ascii c =? 9)%nat with false by (symmetry; apply Nat.eqb_neq; lia).
  replace (py_printable c) with true.
  - reflexivity.
  - unfold py_printable. symmetry. apply negb_true_iff.
    rewrite !orb_false_iff. repeat split; auto. apply Nat.ltb_ge. exact Hlt.
Qed.

(** X17: for text of printable characters with no backslash and no double
    quote, [repr] is the text itself between quotes: single quotes when it
    holds no single quote, double quotes otherwise.  Collection names in
    the not-found message of [rag_query] read as written. *)
Theorem py_repr_str_plain (s : string) :
  all_plain s = true ->
  py_repr_str s =
    (let q := if has_char squote s then dquote else squote in
     String q (s ++ String q EmptyString))%string.
Proof.
  intros Hp. unfold py_repr_str.
  assert (Hnd : has_char dquote s = false).
  { clear -Hp. induction s as [|c s IH]; [reflexivity|].
    cbn [all_plain] in Hp. apply andb_true_iff in Hp as [Hc Hp].
    apply andb_true_iff in Hc as [_ Hdq]. apply negb_true_iff in Hdq.
    cbn [has_char]. rewrite Ascii.eqb_sym, Hdq, IH by exact Hp. reflexivity. }
  rewrite Hnd, andb_true_r.
  destruct (has_char squote s) eqn:Hs; cbv zeta;
    rewrite repr_chars_plain; auto; discriminate.
Qed.

Lemma py_repr_str_plain_witness :
  all_plain "it's" = true /\
  py_repr_str "it's" = String dquote ("it's" ++ String dquote EmptyString)%string.
Proof.
  assert (H : all_plain "it's" = true) by reflexivity.
  split; [exact H | exact (py_repr_str_plain "it's" H)].
Defined.
